(** * pina/condition.py: the [Condition] constructor

    A shallow embedding of [Condition.__init__] and of the Python
    run-time pieces it relies on (argument binding, keyword dictionaries,
    [__slots__] instances, exceptions), once on plain values and once on a
    store of objects with identity, followed by the properties of the
    constructor. *)

From Stdlib Require Import PrimFloat.
From stdpp Require Import gmap strings list sorting.

Open Scope string_scope.
Set Warnings "-register-all,-clear-no-such-hyp".

(** ** Python values *)

Module Py.

(** An object of a class defined outside this module.  The constructor
    never looks inside such an object: it only asks whether it is an
    instance of [LabelTensor], an instance of [Location], and whether it
    is callable.  [o_id] is the object's identity. *)
Record foreign := Foreign {
  o_id : nat;
  o_LabelTensor : bool;
  o_Location : bool;
  o_callable : bool
}.

Inductive value :=
| VNone
| VBool (b : bool)
| VInt (z : Z)
| VFloat (x : float)
| VStr (s : string)
| VTuple (xs : list value)
| VList (xs : list value)
| VObj (o : foreign).

(** The classes named in the source. *)
Inductive class := LabelTensor | Location | list_.

Definition isinstance (v : value) (c : class) : bool :=
  match c, v with
  | LabelTensor, VObj o => o_LabelTensor o
  | Location, VObj o => o_Location o
  | list_, VList _ => true
  | _, _ => false
  end.

Definition callable (v : value) : bool :=
  match v with
  | VObj o => o_callable o
  | _ => false
  end.

(** A message is kept as the pieces of the (f-)string that builds it, so
    that the interpolated data stay visible: [Keys ks] stands for the
    rendering of a [dict_keys] view, [Int i] for that of an integer. *)
Inductive piece :=
| Lit (s : string)
| Keys (ks : list string)
| Int (i : nat).

Definition message := list piece.

Inductive exn :=
| ValueError (msg : message)
| TypeError (msg : message)
| AttributeError (name : string)
| KeyError (key : string).

Inductive result (A : Type) :=
| Ok (a : A)
| Raise (e : exn).
Arguments Ok {A} a.
Arguments Raise {A} e.

Definition is_Ok {A} (r : result A) : bool :=
  match r with Ok _ => true | Raise _ => false end.

(** *** Dictionaries

    A [dict] keeps its items in insertion order; its keys are pairwise
    distinct ([dict_wf]).  The operations do not look at the values, and
    are written for any type [V] of values. *)
Abbreviation dict := (list (string * value)).

Definition dict_keys {V} (d : list (string * V)) : list string := d.*1.

Definition dict_wf {V} (d : list (string * V)) : Prop := NoDup (dict_keys d).

Fixpoint dict_get {V} (d : list (string * V)) (k : string) : option V :=
  match d with
  | [] => None
  | (k', v) :: d' => if decide (k' = k) then Some v else dict_get d' k
  end.

Definition dict_contains {V} (d : list (string * V)) (k : string) : bool :=
  bool_decide (k ∈ dict_keys d).

Fixpoint dict_del {V} (d : list (string * V)) (k : string)
  : list (string * V) :=
  match d with
  | [] => []
  | (k', v) :: d' => if decide (k' = k) then d' else (k', v) :: dict_del d' k
  end.

(** [d[k] = v]: an existing key keeps its position, a new one goes last. *)
Fixpoint dict_set {V} (d : list (string * V)) (k : string) (v : V)
  : list (string * V) :=
  match d with
  | [] => [(k, v)]
  | (k', v') :: d' =>
      if decide (k' = k) then (k, v) :: d' else (k', v') :: dict_set d' k v
  end.

(** [sorted] on a list of strings. *)
Definition sorted (l : list string) : list string := merge_sort String.le l.

End Py.

Import Py.

(** ** Statements

    A statement maps the interpreter state [St] to a result and the state it
    leaves behind; after an exception the rest of the body is skipped. *)

Definition ST (St A : Type) : Type := St → result A * St.

Definition ret {St A} (a : A) : ST St A := λ st, (Ok a, st).

Definition bind {St A B} (m : ST St A) (k : A → ST St B) : ST St B :=
  λ st, match m st with
        | (Ok a, st') => k a st'
        | (Raise e, st') => (Raise e, st')
        end.

Definition raise {St A} (e : exn) : ST St A := λ st, (Raise e, st).

#[export] Instance ST_ret {St} : MRet (ST St) := @ret St.
#[export] Instance ST_bind {St} : MBind (ST St) := λ A B k m, bind m k.

Definition when {St} (b : bool) (m : ST St unit) : ST St unit :=
  if b then m else ret ().

Fixpoint for_enumerate {St A} (i : nat) (l : list A)
    (body : nat → A → ST St unit) : ST St unit :=
  match l with
  | [] => ret ()
  | x :: l' => body i x ;; for_enumerate (S i) l' body
  end.

Fixpoint for_each {St A} (l : list A) (body : A → ST St unit) : ST St unit :=
  match l with
  | [] => ret ()
  | x :: l' => body x ;; for_each l' body
  end.

(** ** The interpreter state of one call of [__init__]

    [self] is the instance under construction (its filled slots), [kwargs]
    the local dictionary of keyword arguments, made anew for the call by
    the binding of the arguments: it never has the key [self]. *)

Record frame := Frame {
  self : gmap string value;
  kwargs : dict
}.

Abbreviation M := (ST frame).

(** ** Module-level function *)

(** [dummy(a)]: ignores its argument and returns [None]. *)
Definition dummy (a : value) : value := VNone.

(** ** class Condition *)

Module Condition.

Definition __slots__ : list string :=
  ["input_points"; "output_points"; "location"; "function"; "data_weight"].

(** An instance: the slots that hold a value. *)
Abbreviation instance := (gmap string value).

(** [setattr(obj, key, value)] on an instance of a class with
    [__slots__] and no [__dict__]: the name of a slot gets the value, and
    a name found nowhere has no place to go.  This is how the constructor
    uses it.  The names the class and [object] define besides the slots
    (methods, [__class__], ...) are no instance state and are not
    modelled: nothing below depends on [setattr] at such a name. *)
Definition setattr (obj : instance) (key : string) (v : value)
  : result instance :=
  if bool_decide (key ∈ __slots__) then Ok (<[key := v]> obj)
  else Raise (AttributeError key).

(** [getattr(obj, name)] for [name] in [__slots__]: the value of the
    slot, and [AttributeError] for a slot that holds none.  Names outside
    [__slots__] are resolved on the class ([__init__], [__slots__],
    [__class__], ...), which is not modelled: the properties below read
    the names of [__slots__] only.  [hasattr] likewise. *)
Definition getattr (obj : instance) (name : string) : result value :=
  match obj !! name with
  | Some v => Ok v
  | None => Raise (AttributeError name)
  end.

Definition hasattr (obj : instance) (name : string) : bool :=
  is_Ok (getattr obj name).

(** *** Statements on the frame *)

Definition self_setattr (key : string) (v : value) : M unit :=
  λ st, match setattr (self st) key v with
        | Ok obj => (Ok (), Frame obj (kwargs st))
        | Raise e => (Raise e, st)
        end.

(** [kwargs.pop(key, default)] *)
Definition kwargs_pop (key : string) (default : value) : M value :=
  λ st, match dict_get (kwargs st) key with
        | Some v => (Ok v, Frame (self st) (dict_del (kwargs st) key))
        | None => (Ok default, st)
        end.

Definition get_kwargs : M dict := λ st, (Ok (kwargs st), st).

(** [kwargs[key]] *)
Definition kwargs_getitem (key : string) : M value :=
  λ st, match dict_get (kwargs st) key with
        | Some v => (Ok v, st)
        | None => (Raise (KeyError key), st)
        end.

(** [kwargs[key] = v] *)
Definition kwargs_setitem (key : string) (v : value) : M unit :=
  λ st, (Ok (), Frame (self st) (dict_set (kwargs st) key v)).

(** Iterating over a value: the constructor only ever iterates over a
    list. *)
Definition iter (v : value) : M (list value) :=
  match v with
  | VList xs | VTuple xs => ret xs
  | _ => raise (TypeError [Lit "object is not iterable"])
  end.

Definition _dictvalue_isinstance (dict_ : dict) (key_ : string)
    (class_ : class) : bool :=
  if negb (dict_contains dict_ key_) then true
  else match dict_get dict_ key_ with
       | Some v => isinstance v class_
       | None => false
       end.

Definition msg_args : message :=
  [Lit "Condition takes only the following keyword arguments: {`input_points`, `output_points`, `location`, `function`, `data_weight`}."].

Definition msg_keys (ks : list string) : message :=
  [Lit "Invalid keyword arguments "; Keys ks; Lit "."].

Definition msg_input_points : message :=
  [Lit "`input_points` must be a torch.Tensor."].
Definition msg_output_points : message :=
  [Lit "`output_points` must be a torch.Tensor."].
Definition msg_location : message :=
  [Lit "`location` must be a Location."].

Definition msg_function (i : nat) : message :=
  [Lit "`function["; Int i; Lit "]` must be a callable function."].

Definition __init__ (args : list value) : M unit :=
  w ← kwargs_pop "data_weight" (VFloat 1.0);
  self_setattr "data_weight" w;;

  when (bool_decide (length args ≠ 0)) (raise (ValueError msg_args));;

  kw ← get_kwargs;
  when (bool_decide (sorted (dict_keys kw) ≠ sorted ["input_points"; "output_points"])
        && bool_decide (sorted (dict_keys kw) ≠ sorted ["location"; "function"])
        && bool_decide (sorted (dict_keys kw) ≠ sorted ["input_points"; "function"]))
    (raise (ValueError (msg_keys (dict_keys kw))));;

  when (negb (_dictvalue_isinstance kw "input_points" LabelTensor))
    (raise (TypeError msg_input_points));;
  when (negb (_dictvalue_isinstance kw "output_points" LabelTensor))
    (raise (TypeError msg_output_points));;
  when (negb (_dictvalue_isinstance kw "location" Location))
    (raise (TypeError msg_location));;

  when (dict_contains kw "function")
    (f ← kwargs_getitem "function";
     when (negb (isinstance f list_))
       (kwargs_setitem "function" (VList [f]));;

     fs ← kwargs_getitem "function";
     xs ← iter fs;
     for_enumerate 0 xs (λ i func,
       when (negb (callable func))
         (raise (TypeError (msg_function i)))));;

  kw' ← get_kwargs;
  for_each kw' (λ '(key, v), self_setattr key v).

(** The message of the interpreter when a keyword is named as the first
    parameter of [__init__(self, *args, **kwargs)] is (CPython 3.10 and
    later put the qualified name in front). *)
Definition msg_self : message :=
  [Lit "Condition.__init__() got multiple values for argument 'self'"].

(** Binding the keywords of a call to the parameters
    [(self, *args, **kwargs)]: [self] is bound to the instance already, so
    a keyword of that name is refused before the body runs; every other
    keyword goes into the new dictionary [kwargs]. *)
Definition bind_kwargs {V} (kw : list (string * V))
  : result (list (string * V)) :=
  if dict_contains kw "self" then Raise (TypeError msg_self) else Ok kw.

(** Calling [__init__] on the instance [obj] with positional arguments
    [args] and keywords [kw], binding step included: the outcome, and the
    instance as the call leaves it. *)
Definition init_call (obj : instance) (args : list value) (kw : dict)
  : result unit * instance :=
  match bind_kwargs kw with
  | Raise e => (Raise e, obj)
  | Ok kwargs =>
      let (r, st) := __init__ args (Frame obj kwargs) in (r, self st)
  end.

(** Calling the class [Condition]: a fresh instance with every slot empty
    is handed to [__init__]; the call yields the instance when
    [__init__] returns, and the exception otherwise. *)
Definition call (args : list value) (kw : dict) : result instance :=
  match init_call ∅ args kw with
  | (Ok _, obj) => Ok obj
  | (Raise e, _) => Raise e
  end.

End Condition.

Import Condition.

(** ** The constructor on a store of objects

    The same class, with what the values above leave out: identity.  A
    list and an instance are objects in a store, a value refers to one by
    its address, and two references to one address see one object.  The
    list display [[kwargs['function']]] makes a new list; calling the
    class makes a new instance. *)

Module Heap.

Inductive val :=
| HNone
| HBool (b : bool)
| HInt (z : Z)
| HFloat (x : float)
| HStr (s : string)
| HTuple (xs : list val)
| HObj (o : foreign)
| HRef (l : nat).

Inductive object :=
| List (items : list val)
| Instance (slots : gmap string val).

Abbreviation heap := (gmap nat object).

Definition isinstance (h : heap) (v : val) (c : class) : bool :=
  match c, v with
  | LabelTensor, HObj o => o_LabelTensor o
  | Location, HObj o => o_Location o
  | list_, HRef l => if h !! l is Some (List _) then true else false
  | _, _ => false
  end.

Definition callable (v : val) : bool :=
  match v with
  | HObj o => o_callable o
  | _ => false
  end.

(** The state of one call of [__init__]: the store, the address of
    [self], and the local dictionary [kwargs]. *)
Record frame := Frame {
  objects : heap;
  self : nat;
  kwargs : list (string * val)
}.

Definition setattr (h : heap) (obj : nat) (key : string) (v : val)
  : result heap :=
  match h !! obj with
  | Some (Instance slots) =>
      if bool_decide (key ∈ __slots__)
      then Ok (<[obj := Instance (<[key := v]> slots)]> h)
      else Raise (AttributeError key)
  | _ => Raise (AttributeError key)
  end.

Definition self_setattr (key : string) (v : val) : ST frame unit :=
  λ st, match setattr (objects st) (self st) key v with
        | Ok h => (Ok (), Frame h (self st) (kwargs st))
        | Raise e => (Raise e, st)
        end.

Definition kwargs_pop (key : string) (default : val) : ST frame val :=
  λ st, match dict_get (kwargs st) key with
        | Some v =>
            (Ok v, Frame (objects st) (self st) (dict_del (kwargs st) key))
        | None => (Ok default, st)
        end.

Definition get_kwargs : ST frame (list (string * val)) :=
  λ st, (Ok (kwargs st), st).

Definition kwargs_getitem (key : string) : ST frame val :=
  λ st, match dict_get (kwargs st) key with
        | Some v => (Ok v, st)
        | None => (Raise (KeyError key), st)
        end.

Definition kwargs_setitem (key : string) (v : val) : ST frame unit :=
  λ st, (Ok (), Frame (objects st) (self st) (dict_set (kwargs st) key v)).

(** The list display [[x]]: a new list object, at an address no object
    has. *)
Definition new_list (xs : list val) : ST frame val :=
  λ st, let l := fresh (dom (objects st)) in
        (Ok (HRef l), Frame (<[l := List xs]> (objects st)) (self st) (kwargs st)).

Definition test_isinstance (v : val) (c : class) : ST frame bool :=
  λ st, (Ok (isinstance (objects st) v c), st).

Definition iter (v : val) : ST frame (list val) :=
  λ st, match v with
        | HRef l =>
            match objects st !! l with
            | Some (List xs) => (Ok xs, st)
            | _ => (Raise (TypeError [Lit "object is not iterable"]), st)
            end
        | HTuple xs => (Ok xs, st)
        | _ => (Raise (TypeError [Lit "object is not iterable"]), st)
        end.

Definition _dictvalue_isinstance (dict_ : list (string * val))
    (key_ : string) (class_ : class) : ST frame bool :=
  if negb (dict_contains dict_ key_) then mret true
  else v ← (λ st, match dict_get dict_ key_ with
                  | Some v => (Ok v, st)
                  | None => (Raise (KeyError key_), st)
                  end);
       test_isinstance v class_.

Definition __init__ (args : list val) : ST frame unit :=
  w ← kwargs_pop "data_weight" (HFloat 1.0);
  self_setattr "data_weight" w;;

  when (bool_decide (length args ≠ 0)) (raise (ValueError msg_args));;

  kw ← get_kwargs;
  when (bool_decide (sorted (dict_keys kw) ≠ sorted ["input_points"; "output_points"])
        && bool_decide (sorted (dict_keys kw) ≠ sorted ["location"; "function"])
        && bool_decide (sorted (dict_keys kw) ≠ sorted ["input_points"; "function"]))
    (raise (ValueError (msg_keys (dict_keys kw))));;

  b ← _dictvalue_isinstance kw "input_points" LabelTensor;
  when (negb b) (raise (TypeError msg_input_points));;
  b ← _dictvalue_isinstance kw "output_points" LabelTensor;
  when (negb b) (raise (TypeError msg_output_points));;
  b ← _dictvalue_isinstance kw "location" Location;
  when (negb b) (raise (TypeError msg_location));;

  when (dict_contains kw "function")
    (f ← kwargs_getitem "function";
     b ← test_isinstance f list_;
     when (negb b)
       (l ← new_list [f];
        kwargs_setitem "function" l);;

     fs ← kwargs_getitem "function";
     xs ← iter fs;
     for_enumerate 0 xs (λ i func,
       when (negb (callable func))
         (raise (TypeError (msg_function i)))));;

  kw' ← get_kwargs;
  for_each kw' (λ '(key, v), self_setattr key v).

(** Calling the class: a new instance with every slot empty is made at an
    address no object has, the keywords are bound, and [__init__] runs on
    it.  When [__init__] raises, what the call made is out of reach and the
    caller's store is as before. *)
Definition call (h : heap) (args : list val) (kw : list (string * val))
  : result nat * heap :=
  let obj := fresh (dom h) in
  match bind_kwargs kw with
  | Raise e => (Raise e, h)
  | Ok kwargs =>
      match __init__ args (Frame (<[obj := Instance ∅]> h) obj kwargs) with
      | (Ok _, st) => (Ok obj, objects st)
      | (Raise e, _) => (Raise e, h)
      end
  end.

End Heap.

(** ** Auxiliary definitions for the statements and proofs *)

(** The loop over [enumerate(kwargs['function'])] stops at the first element
    that is not callable, and changes nothing. *)
Fixpoint first_noncallable (i : nat) (xs : list value) : option nat :=
  match xs with
  | [] => None
  | x :: xs' => if callable x then first_noncallable (S i) xs' else Some i
  end.

(** The final loop [for key, value in kwargs.items(): setattr(self, ...)]. *)
Definition store {V} (obj : gmap string V) (kw : list (string * V))
  : gmap string V :=
  foldl (λ o kv, <[kv.1 := kv.2]> o) obj kw.

(** The index, counted from [i], of the first element of [xs] on which the
    test [p] fails. *)
Fixpoint first_false {A} (p : A → bool) (i : nat) (xs : list A) : option nat :=
  match xs with
  | [] => None
  | x :: xs' => if p x then first_false p (S i) xs' else Some i
  end.

Definition rejected (ks : list string) : bool :=
  bool_decide (sorted ks ≠ sorted ["input_points"; "output_points"])
  && bool_decide (sorted ks ≠ sorted ["location"; "function"])
  && bool_decide (sorted ks ≠ sorted ["input_points"; "function"]).

(** The names a call gives beside [data_weight], as a set, and the three
    sets of names the class accepts. *)
Definition keyset (kw : dict) : gset string :=
  list_to_set (dict_keys kw) ∖ {["data_weight"]}.

Definition variants : list (gset string) :=
  [ {["input_points"; "output_points"]};
    {["location"; "function"]};
    {["input_points"; "function"]} ].

(** The dictionary after [kwargs['function']] has been wrapped. *)
Definition normalize (kw : dict) : dict :=
  match dict_get kw "function" with
  | Some f =>
      if isinstance f list_ then kw else dict_set kw "function" (VList [f])
  | None => kw
  end.

Definition function_items (kw : dict) : list value :=
  match dict_get kw "function" with
  | Some (VList xs) => xs
  | _ => []
  end.

Definition weight (kw : dict) : value :=
  default (VFloat 1.0) (dict_get kw "data_weight").

(** The value stored for a supplied [function]. *)
Definition wrap (f : value) : value :=
  if isinstance f list_ then f else VList [f].

(** A field of the caller's dictionary holds an instance of class [c]
    whenever it is given; and the opposite: it is given and holds something
    else. *)
Definition has_type (kw : dict) (k : string) (c : class) : Prop :=
  ∀ v, dict_get kw k = Some v → isinstance v c = true.

Definition ill_typed (kw : dict) (k : string) (c : class) : Prop :=
  ∃ v, dict_get kw k = Some v ∧ isinstance v c = false.

(** The sequence of functions a supplied [function] value stands for: the
    elements of a list, or the value alone. *)
Definition function_seq (f : value) : list value :=
  match f with
  | VList xs => xs
  | _ => [f]
  end.

(** A supplied [function] is one callable or a list of callables. *)
Definition function_ok (kw : dict) : Prop :=
  ∀ f, dict_get kw "function" = Some f →
       Forall (λ x, callable x = true) (function_seq f).




(** *** Sample values: two labelled tensors, a location, two functions *)
Module Sample.
Definition T1 : value := VObj (Foreign 1 true false false).
Definition T2 : value := VObj (Foreign 2 true false false).
Definition L : value := VObj (Foreign 3 false true false).
Definition f1 : value := VObj (Foreign 4 false false true).
Definition f2 : value := VObj (Foreign 5 false false true).
End Sample.

(** Closing a decidable goal on concrete data by evaluation. *)
Ltac by_computation := refine (bool_decide_unpack _ _); vm_compute; exact I.

(** ** Facts about dictionaries *)

Section dict_facts.
Context {V : Type}.
Implicit Types (d : list (string * V)) (k : string) (v : V).

Lemma dict_get_None d k : dict_get d k = None ↔ k ∉ dict_keys d.
Proof.
  unfold dict_keys. induction d as [|[k' v'] d IH]; simpl.
  - split; [set_solver | done].
  - case_decide; subst.
    + split; [done | set_solver].
    + rewrite IH. set_solver.
Qed.

Lemma dict_get_Some_keys d k v : dict_get d k = Some v → k ∈ dict_keys d.
Proof.
  intros Hget. destruct (decide (k ∈ dict_keys d)) as [|Hn]; [done|].
  apply dict_get_None in Hn. congruence.
Qed.

Lemma dict_contains_get d k :
  dict_contains d k = if dict_get d k is Some _ then true else false.
Proof.
  unfold dict_contains. destruct (dict_get d k) eqn:Hget.
  - apply bool_decide_eq_true. eauto using dict_get_Some_keys.
  - apply bool_decide_eq_false. by apply dict_get_None.
Qed.

Lemma dict_del_absent d k : dict_get d k = None → dict_del d k = d.
Proof.
  induction d as [|[k' v'] d IH]; simpl; [done|].
  case_decide; [done|]. intros ?. f_equal. auto.
Qed.

Lemma dict_get_del_ne d k k' :
  k ≠ k' → dict_get (dict_del d k) k' = dict_get d k'.
Proof.
  intros Hne. induction d as [|[k0 v0] d IH]; simpl; [done|].
  repeat (case_decide; simpl; subst); congruence.
Qed.

Lemma dict_keys_del d k v :
  dict_get d k = Some v → dict_keys d ≡ₚ k :: dict_keys (dict_del d k).
Proof.
  unfold dict_keys. induction d as [|[k0 v0] d IH]; simpl; [done|].
  case_decide; subst; [done|]. intros Hget.
  rewrite (IH Hget). simpl. apply Permutation_swap.
Qed.

Lemma dict_get_set_eq d k v : dict_get (dict_set d k v) k = Some v.
Proof.
  induction d as [|[k0 v0] d IH]; simpl.
  - by rewrite decide_True.
  - case_decide; simpl; [by rewrite decide_True | by rewrite decide_False].
Qed.

Lemma dict_get_set_ne d k k' v :
  k ≠ k' → dict_get (dict_set d k v) k' = dict_get d k'.
Proof.
  intros Hne. induction d as [|[k0 v0] d IH]; simpl.
  - by rewrite decide_False.
  - repeat (case_decide; simpl; subst); congruence.
Qed.

Lemma dict_keys_set d k v v' :
  dict_get d k = Some v' → dict_keys (dict_set d k v) = dict_keys d.
Proof.
  unfold dict_keys. induction d as [|[k0 v0] d IH]; simpl; [done|].
  case_decide; simpl; subst; [done|]. intros ?. f_equal. auto.
Qed.

Lemma dict_del_set d k v : dict_del (dict_set d k v) k = dict_del d k.
Proof.
  induction d as [|[k0 v0] d IH]; simpl.
  - by rewrite decide_True.
  - case_decide; simpl; [by rewrite decide_True|].
    rewrite decide_False by done. by f_equal.
Qed.

(** What [pop] leaves behind in a well-formed dictionary. *)
Lemma dict_wf_del d k : dict_wf d → dict_wf (dict_del d k).
Proof.
  unfold dict_wf. intros Hwf. destruct (dict_get d k) eqn:Hget.
  - rewrite (dict_keys_del _ _ _ Hget) in Hwf. by apply NoDup_cons in Hwf as [_ ?].
  - by rewrite dict_del_absent.
Qed.

Lemma dict_keys_del_set d k :
  dict_wf d →
  list_to_set (dict_keys (dict_del d k)) =@{gset string}
    list_to_set (dict_keys d) ∖ {[k]}.
Proof.
  unfold dict_wf. intros Hwf. destruct (dict_get d k) eqn:Hget.
  - rewrite (dict_keys_del _ _ _ Hget) in Hwf.
    apply NoDup_cons in Hwf as [Hk _].
    rewrite (dict_keys_del d k v Hget). set_solver.
  - rewrite dict_del_absent by done. apply dict_get_None in Hget. set_solver.
Qed.

End dict_facts.

(** ** Running statements *)

Section run.
Context {St A B : Type}.
Implicit Types (m : ST St A) (k : A → ST St B) (st : St).

Lemma run_bind m k st :
  (m ≫= k) st =
  match m st with
  | (Ok a, st') => k a st'
  | (Raise e, st') => (Raise e, st')
  end.
Proof. reflexivity. Qed.

Lemma run_bind_Ok m k st a st' : m st = (Ok a, st') → (m ≫= k) st = k a st'.
Proof. intros Hm. by rewrite run_bind, Hm. Qed.

Lemma run_bind_Raise m k st e st' :
  m st = (Raise e, st') → (m ≫= k) st = (Raise e, st').
Proof. intros Hm. by rewrite run_bind, Hm. Qed.
End run.

Lemma run_when_raise {St} (b : bool) (e : exn) (k : unit → ST St unit) st :
  (when b (raise e) ≫= k) st = if b then (Raise e, st) else k () st.
Proof. by destruct b. Qed.

Lemma run_check_callable i xs (st : frame) :
  for_enumerate i xs
    (λ i func, when (negb (callable func)) (raise (TypeError (msg_function i)))) st
  = match first_noncallable i xs with
    | Some j => (Raise (TypeError (msg_function j)), st)
    | None => (Ok (), st)
    end.
Proof.
  revert i. induction xs as [|x xs IH]; intros i; simpl; [done|].
  rewrite run_when_raise. destruct (callable x); simpl; [apply IH | done].
Qed.

Lemma first_noncallable_None i xs :
  first_noncallable i xs = None ↔ Forall (λ x, callable x = true) xs.
Proof.
  revert i. induction xs as [|x xs IH]; intros i; simpl.
  - split; [constructor | done].
  - destruct (callable x) eqn:Hx.
    + rewrite IH. split; [by constructor | by inversion 1].
    + split; [done | inversion 1; congruence].
  Qed.

Lemma first_noncallable_Some i xs j :
  first_noncallable i xs = Some j ↔
  ∃ n x, j = i + n ∧ xs !! n = Some x ∧ callable x = false ∧
         Forall (λ y, callable y = true) (take n xs).
Proof.
  revert i. induction xs as [|x xs IH]; intros i; simpl.
  - split; [done | by intros (n & y & _ & ? & _)].
  - destruct (callable x) eqn:Hx.
    + rewrite IH. split.
      * intros (n & y & -> & Hn & Hy & Hpre).
        exists (S n), y. split_and!; [lia | done | done | by constructor].
      * intros (n & y & -> & Hn & Hy & Hpre). destruct n as [|n]; simpl in *.
        { congruence. }
        exists n, y. split_and!; [lia | done | done | by inversion Hpre].
    + split.
      * intros [= <-]. exists 0, x. split_and!; [lia | done | done | constructor].
      * intros (n & y & -> & Hn & Hy & Hpre). destruct n as [|n]; simpl in *.
        { f_equal. lia. }
        inversion Hpre; congruence.
Qed.

Lemma run_store kw obj kw0 :
  Forall (λ k, k ∈ __slots__) (dict_keys kw) →
  for_each kw (λ '(key, v), self_setattr key v) (Frame obj kw0)
  = (Ok (), Frame (store obj kw) kw0).
Proof.
  unfold dict_keys. revert obj.
  induction kw as [|[k v] kw IH]; intros obj Hks; simpl; [done|].
  apply Forall_cons in Hks as [Hk Hks].
  erewrite run_bind_Ok; [by apply IH|].
  unfold self_setattr, setattr. simpl. by rewrite bool_decide_eq_true_2.
Qed.

Lemma store_dom {V} (obj : gmap string V) kw :
  dom (store obj kw) = dom obj ∪ list_to_set (dict_keys kw).
Proof.
  unfold store, dict_keys. revert obj.
  induction kw as [|[k v] kw IH]; intros obj; simpl; [set_solver|].
  rewrite IH, dom_insert_L. set_solver.
Qed.

Lemma store_lookup_absent {V} (obj : gmap string V) kw k :
  k ∉ dict_keys kw → store obj kw !! k = obj !! k.
Proof.
  unfold store, dict_keys. revert obj.
  induction kw as [|[k' v] kw IH]; intros obj Hk; simpl; [done|].
  rewrite IH by set_solver. rewrite lookup_insert_ne; [done | set_solver].
Qed.

Lemma store_lookup {V} (obj : gmap string V) kw k v :
  dict_wf kw → dict_get kw k = Some v → store obj kw !! k = Some v.
Proof.
  unfold store, dict_wf, dict_keys. revert obj.
  induction kw as [|[k' v'] kw IH]; intros obj Hwf; simpl; [done|].
  apply NoDup_cons in Hwf as [Hk' Hwf].
  case_decide; subst.
  - intros [= ->]. fold (store (<[k:=v]> obj) kw).
    rewrite store_lookup_absent by done. by rewrite lookup_insert_eq.
  - by apply IH.
Qed.

(** ** The test on the keyword names *)

Lemma sorted_eq_iff (l l' : list string) : sorted l = sorted l' ↔ l ≡ₚ l'.
Proof.
  unfold sorted. split.
  - intros Heq.
    rewrite <-(merge_sort_Permutation String.le l), Heq.
    apply merge_sort_Permutation.
  - intros Hp. apply (Sorted_unique String.le).
    + apply Sorted_merge_sort, _.
    + apply Sorted_merge_sort, _.
    + by rewrite !merge_sort_Permutation.
Qed.

Lemma rejected_false ks :
  rejected ks = false ↔
  ks ≡ₚ ["input_points"; "output_points"] ∨ ks ≡ₚ ["location"; "function"]
  ∨ ks ≡ₚ ["input_points"; "function"].
Proof.
  unfold rejected. rewrite !andb_false_iff, !bool_decide_eq_false.
  assert (∀ x y : list string, ¬ x ≠ y ↔ x = y) as Hnn.
  { intros x y. split; [apply dec_stable | by intros -> ?]. }
  rewrite !Hnn, !sorted_eq_iff. tauto.
Qed.

Lemma perm_pair_set (ks : list string) a b :
  NoDup ks → a ≠ b →
  ks ≡ₚ [a; b] ↔ list_to_set ks =@{gset string} {[a; b]}.
Proof.
  intros Hnd Hab. split.
  - intros ->. set_solver.
  - intros Heq. apply NoDup_Permutation; [done | |].
    + repeat constructor; set_solver.
    + intros x. rewrite <-(elem_of_list_to_set (C:=gset string)), Heq. set_solver.
Qed.

Lemma rejected_keyset kw :
  dict_wf kw →
  rejected (dict_keys (dict_del kw "data_weight")) = false ↔ keyset kw ∈ variants.
Proof.
  intros Hwf. unfold keyset, variants.
  rewrite <-dict_keys_del_set by done.
  pose proof (dict_wf_del _ "data_weight" Hwf) as Hwf1. unfold dict_wf in Hwf1.
  rewrite rejected_false, !elem_of_cons, elem_of_nil.
  rewrite !perm_pair_set by done. tauto.
Qed.

(** ** The run of [__init__], phase by phase *)

Lemma init_run args kw :
  let kw1 := dict_del kw "data_weight" in
  let obj1 : instance := <["data_weight" := weight kw]> ∅ in
  __init__ args (Frame ∅ kw) =
  if bool_decide (length args ≠ 0) then
    (Raise (ValueError msg_args), Frame obj1 kw1)
  else if rejected (dict_keys kw1) then
    (Raise (ValueError (msg_keys (dict_keys kw1))), Frame obj1 kw1)
  else if negb (_dictvalue_isinstance kw1 "input_points" LabelTensor) then
    (Raise (TypeError msg_input_points), Frame obj1 kw1)
  else if negb (_dictvalue_isinstance kw1 "output_points" LabelTensor) then
    (Raise (TypeError msg_output_points), Frame obj1 kw1)
  else if negb (_dictvalue_isinstance kw1 "location" Location) then
    (Raise (TypeError msg_location), Frame obj1 kw1)
  else
    match first_noncallable 0 (function_items (normalize kw1)) with
    | Some i => (Raise (TypeError (msg_function i)), Frame obj1 (normalize kw1))
    | None =>
        for_each (normalize kw1) (λ '(key, v), self_setattr key v)
          (Frame obj1 (normalize kw1))
    end.
Proof.
  intros kw1 obj1. unfold __init__.
  rewrite (run_bind_Ok _ _ _ (weight kw) (Frame ∅ kw1)); last first.
  { unfold kwargs_pop, weight, kw1. simpl.
    destruct (dict_get kw "data_weight") eqn:Hget; simpl; [done|].
    rewrite dict_del_absent by done. by destruct kw. }
  rewrite (run_bind_Ok _ _ _ () (Frame obj1 kw1)) by reflexivity.
  rewrite run_when_raise. case_bool_decide; [done|].
  rewrite (run_bind_Ok _ _ _ kw1 (Frame obj1 kw1)) by reflexivity.
  rewrite run_when_raise. fold (rejected (dict_keys kw1)).
  destruct (rejected (dict_keys kw1)); [done|].
  rewrite run_when_raise. destruct (negb _); [done|].
  rewrite run_when_raise. destruct (negb _); [done|].
  rewrite run_when_raise. destruct (negb _); [done|].
  rewrite dict_contains_get. unfold normalize, function_items.
  destruct (dict_get kw1 "function") as [f|] eqn:Hf; cbn -[isinstance].
  - rewrite run_bind.
    rewrite (run_bind_Ok _ _ _ f (Frame obj1 kw1));
      [|by unfold kwargs_getitem; simpl; rewrite Hf].
    destruct (isinstance f list_) eqn:Hl; simpl.
    + rewrite (run_bind_Ok _ _ _ () (Frame obj1 kw1)) by reflexivity.
      rewrite (run_bind_Ok _ _ _ f (Frame obj1 kw1));
        [|by unfold kwargs_getitem; simpl; rewrite Hf].
      rewrite Hf. destruct f; try discriminate Hl. simpl.
      rewrite (run_bind_Ok _ _ _ xs (Frame obj1 kw1)) by reflexivity.
      rewrite run_check_callable.
      destruct (first_noncallable 0 xs); [done|]. reflexivity.
    + set (kw2 := dict_set kw1 "function" (VList [f])).
      rewrite (run_bind_Ok _ _ _ () (Frame obj1 kw2)) by reflexivity.
      rewrite (run_bind_Ok _ _ _ (VList [f]) (Frame obj1 kw2));
        [|by unfold kwargs_getitem, kw2; simpl; rewrite dict_get_set_eq].
      replace (dict_get kw2 "function") with (Some (VList [f]))
        by (unfold kw2; by rewrite dict_get_set_eq).
      rewrite (run_bind_Ok _ _ _ [f] (Frame obj1 kw2)) by reflexivity.
      rewrite run_check_callable.
      destruct (first_noncallable 0 [f]); [done|]. reflexivity.
  - rewrite run_bind, Hf. reflexivity.
Qed.

Lemma normalize_keys kw : dict_keys (normalize kw) = dict_keys kw.
Proof.
  unfold normalize. destruct (dict_get kw "function") as [f|] eqn:Hf; [|done].
  destruct (isinstance f list_); [done|]. by erewrite dict_keys_set.
Qed.

Lemma accepted_slots ks : rejected ks = false → Forall (λ k, k ∈ __slots__) ks.
Proof.
  intros Hks. apply Forall_forall. intros k Hk. unfold __slots__.
  apply rejected_false in Hks as [Hp|[Hp|Hp]]; rewrite Hp in Hk; set_solver.
Qed.

Lemma accepted_NoDup ks : rejected ks = false → NoDup ks.
Proof.
  intros Hks.
  apply rejected_false in Hks as [Hp|[Hp|Hp]]; rewrite Hp;
    repeat constructor; set_solver.
Qed.

(** A keyword named [self] stops the call at the binding step. *)
Lemma call_self args kw :
  dict_contains kw "self" = true → call args kw = Raise (TypeError msg_self).
Proof. intros Hself. unfold call, init_call, bind_kwargs. by rewrite Hself. Qed.

Lemma no_self_iff {V} (kw : list (string * V)) :
  dict_contains kw "self" = false ↔ "self" ∉ dict_keys kw.
Proof. unfold dict_contains. apply bool_decide_eq_false. Qed.

Lemma dict_contains_del_ne {V} (d : list (string * V)) k k' :
  k' ≠ k → dict_contains (dict_del d k') k = dict_contains d k.
Proof. intros Hne. by rewrite !dict_contains_get, dict_get_del_ne. Qed.

Lemma dict_contains_set_ne {V} (d : list (string * V)) k k' v :
  k' ≠ k → dict_contains (dict_set d k' v) k = dict_contains d k.
Proof. intros Hne. by rewrite !dict_contains_get, dict_get_set_ne. Qed.

Lemma dict_contains_perm {V} (d d' : list (string * V)) k :
  d' ≡ₚ d → dict_contains d' k = dict_contains d k.
Proof.
  intros Hp. unfold dict_contains, dict_keys.
  apply bool_decide_ext. by rewrite Hp.
Qed.

(** None of the accepted sets of names has [self]. *)
Lemma variants_no_self kw :
  keyset kw ∈ variants → dict_contains kw "self" = false.
Proof.
  intros Hks. apply no_self_iff. intros Hself.
  assert ("self" ∈ keyset kw) as Hin by (unfold keyset; set_solver).
  unfold variants in Hks. rewrite !elem_of_cons, elem_of_nil in Hks.
  destruct Hks as [Heq|[Heq|[Heq|[]]]]; rewrite Heq in Hin; set_solver.
Qed.

(** The outcome of a call whose keywords pass the binding step, one case
    per exit of [__init__]. *)
Lemma call_run args kw :
  dict_contains kw "self" = false →
  let kw1 := dict_del kw "data_weight" in
  call args kw =
  if bool_decide (length args ≠ 0) then Raise (ValueError msg_args)
  else if rejected (dict_keys kw1) then
    Raise (ValueError (msg_keys (dict_keys kw1)))
  else if negb (_dictvalue_isinstance kw1 "input_points" LabelTensor) then
    Raise (TypeError msg_input_points)
  else if negb (_dictvalue_isinstance kw1 "output_points" LabelTensor) then
    Raise (TypeError msg_output_points)
  else if negb (_dictvalue_isinstance kw1 "location" Location) then
    Raise (TypeError msg_location)
  else
    match first_noncallable 0 (function_items (normalize kw1)) with
    | Some i => Raise (TypeError (msg_function i))
    | None => Ok (store (<["data_weight" := weight kw]> ∅) (normalize kw1))
    end.
Proof.
  intros Hself kw1. unfold call, init_call, bind_kwargs.
  rewrite Hself, init_run. fold kw1.
  case_bool_decide; [done|].
  destruct (rejected (dict_keys kw1)) eqn:Hks; [done|].
  repeat (destruct (negb _); [done|]).
  destruct (first_noncallable 0 _); [done|].
  rewrite run_store; [done|].
  rewrite normalize_keys. by apply accepted_slots.
Qed.

(** The type test of one field, read off the dictionary the caller gave. *)
Lemma dictvalue_isinstance_true kw k c :
  _dictvalue_isinstance kw k c = true ↔
  ∀ v, dict_get kw k = Some v → isinstance v c = true.
Proof.
  unfold _dictvalue_isinstance. rewrite dict_contains_get.
  destruct (dict_get kw k) as [v|]; simpl.
  - split; [by intros ? ? [= <-] | auto].
  - split; [done | auto].
Qed.

Lemma dictvalue_isinstance_false kw k c :
  _dictvalue_isinstance kw k c = false ↔
  ∃ v, dict_get kw k = Some v ∧ isinstance v c = false.
Proof.
  unfold _dictvalue_isinstance. rewrite dict_contains_get.
  destruct (dict_get kw k) as [v|]; simpl.
  - split; [eauto | by intros (? & [= <-] & ?)].
  - split; [done | by intros (? & ? & ?)].
Qed.

(** ** The instance a successful call returns *)

Lemma normalize_get kw k :
  dict_get (normalize kw) k =
  if decide (k = "function") then wrap <$> dict_get kw "function"
  else dict_get kw k.
Proof.
  unfold normalize, wrap. case_decide as Hk; subst.
  - destruct (dict_get kw "function") as [f|] eqn:Hf; [|by rewrite Hf].
    cbn -[isinstance].
    destruct (isinstance f list_); [done | by rewrite dict_get_set_eq].
  - destruct (dict_get kw "function") as [f|] eqn:Hf; [|done].
    destruct (isinstance f list_); [done | by rewrite dict_get_set_ne].
Qed.

Lemma function_items_normalize kw :
  function_items (normalize kw) =
  if dict_get kw "function" is Some f then function_seq f else [].
Proof.
  unfold function_items. rewrite normalize_get. simpl. unfold wrap.
  destruct (dict_get kw "function") as [f|]; simpl; [|done].
  by destruct f.
Qed.

Lemma store_accepted_lookup kw1 w k :
  rejected (dict_keys kw1) = false →
  store (<["data_weight" := w]> ∅) (normalize kw1) !! k =
  if decide (k = "data_weight") then Some w else dict_get (normalize kw1) k.
Proof.
  intros Hacc.
  assert (dict_wf (normalize kw1)) as Hwf.
  { unfold dict_wf. rewrite normalize_keys. by apply accepted_NoDup. }
  assert ("data_weight" ∉ dict_keys (normalize kw1)) as Hdw.
  { rewrite normalize_keys.
    apply rejected_false in Hacc as [Hp|[Hp|Hp]]; rewrite Hp; set_solver. }
  case_decide as Hk; subst.
  - rewrite store_lookup_absent by done. apply lookup_insert_eq.
  - destruct (dict_get (normalize kw1) k) as [v|] eqn:Hget.
    + by apply store_lookup.
    + apply dict_get_None in Hget. rewrite store_lookup_absent by done.
      by rewrite lookup_insert_ne, lookup_empty.
Qed.

(** Every exit of [__init__] but the last raises: a call that returns
    passed each check. *)
Lemma call_Ok_inv args kw obj :
  call args kw = Ok obj →
  let kw1 := dict_del kw "data_weight" in
  args = [] ∧ rejected (dict_keys kw1) = false
  ∧ _dictvalue_isinstance kw1 "input_points" LabelTensor = true
  ∧ _dictvalue_isinstance kw1 "output_points" LabelTensor = true
  ∧ _dictvalue_isinstance kw1 "location" Location = true
  ∧ first_noncallable 0 (function_items (normalize kw1)) = None
  ∧ obj = store (<["data_weight" := weight kw]> ∅) (normalize kw1).
Proof.
  destruct (dict_contains kw "self") eqn:Hself; [by rewrite call_self|].
  rewrite call_run by done. simpl.
  case_bool_decide as Hargs; [done|].
  destruct (rejected _); [done|].
  destruct (_dictvalue_isinstance _ "input_points" _); [|done].
  destruct (_dictvalue_isinstance _ "output_points" _); [|done].
  destruct (_dictvalue_isinstance _ "location" _); [|done]. simpl.
  destruct (first_noncallable _ _); [done|]. intros [= <-].
  split_and!; try done. destruct args; [done|]. simpl in Hargs. lia.
Qed.

Lemma call_Ok_lookup args kw obj k :
  call args kw = Ok obj →
  obj !! k =
  if decide (k = "data_weight") then Some (weight kw)
  else if decide (k = "function") then wrap <$> dict_get kw "function"
  else dict_get kw k.
Proof.
  intros (_ & Hacc & _ & _ & _ & _ & ->)%call_Ok_inv.
  rewrite store_accepted_lookup by done.
  case_decide; [done|]. rewrite normalize_get.
  case_decide; by rewrite dict_get_del_ne.
Qed.

Lemma call_Ok_dom args kw obj :
  dict_wf kw → call args kw = Ok obj → dom obj = keyset kw ∪ {["data_weight"]}.
Proof.
  intros Hwf (_ & Hacc & _ & _ & _ & _ & ->)%call_Ok_inv.
  rewrite store_dom, normalize_keys, dict_keys_del_set by done.
  rewrite dom_insert_L, dom_empty_L. unfold keyset. set_solver.
Qed.

(** ** Properties of the constructor *)

(** What [pop] and the key test see, in terms of the caller's dictionary. *)
Lemma call_rejected kw :
  dict_wf kw → "self" ∉ dict_keys kw → keyset kw ∉ variants →
  call [] kw = Raise (ValueError (msg_keys (dict_keys (dict_del kw "data_weight")))).
Proof.
  intros Hwf Hself%no_self_iff Hks. rewrite call_run by done. simpl.
  destruct (rejected _) eqn:Hrej; [done|].
  by apply rejected_keyset in Hrej.
Qed.

Lemma keyset_perm kw kw' : kw' ≡ₚ kw → keyset kw' = keyset kw.
Proof. unfold keyset, dict_keys. intros ->. done. Qed.

Lemma dict_wf_perm {V} (kw kw' : list (string * V)) :
  kw' ≡ₚ kw → dict_wf kw → dict_wf kw'.
Proof. unfold dict_wf, dict_keys. by intros ->. Qed.

(** C1: a call without positional arguments whose keyword names, beside
    [data_weight], are as a set none of {input_points, output_points},
    {location, function}, {input_points, function} raises the [ValueError]
    "Invalid keyword arguments ..." that shows the names; and so does the
    call with the same keywords given in any other order.  With
    positional arguments as well, the call still returns no instance.
    The keywords are those that reach the body: none is named [self],
    which the binding of the arguments refuses beforehand. *)
Theorem keyset_outside_variants_raises kw :
  dict_wf kw → "self" ∉ dict_keys kw → keyset kw ∉ variants →
  call [] kw
    = Raise (ValueError (msg_keys (dict_keys (dict_del kw "data_weight"))))
  ∧ (∀ kw', kw' ≡ₚ kw →
      call [] kw'
      = Raise (ValueError (msg_keys (dict_keys (dict_del kw' "data_weight")))))
  ∧ (∀ args, ∃ msg, call args kw = Raise (ValueError msg)).
Proof.
  intros Hwf Hself Hks. split_and!; [by apply call_rejected| |].
  - intros kw' Hp. apply call_rejected.
    + by eapply dict_wf_perm.
    + unfold dict_keys in *. by rewrite Hp.
    + by rewrite (keyset_perm _ _ Hp).
  - intros args. rewrite call_run by (by apply no_self_iff). simpl.
    case_bool_decide; [by eexists|].
    destruct (rejected _) eqn:Hrej; [by eexists|].
    by apply rejected_keyset in Hrej.
Qed.

Lemma keyset_outside_variants_raises_witness :
  call [] [("location", Sample.L); ("data_weight", VFloat 2.5);
           ("input_points", Sample.T1)]
    = Raise (ValueError (msg_keys ["location"; "input_points"]))
  ∧ call [] [("input_points", Sample.T1); ("location", Sample.L);
             ("data_weight", VFloat 2.5)]
    = Raise (ValueError (msg_keys ["input_points"; "location"])).
Proof.
  assert (dict_wf [("location", Sample.L); ("data_weight", VFloat 2.5);
                   ("input_points", Sample.T1)]) as Hwf.
  { refine (bool_decide_unpack _ _). vm_compute. exact I. }
  assert ("self" ∉ dict_keys [("location", Sample.L); ("data_weight", VFloat 2.5);
                              ("input_points", Sample.T1)]) as Hself.
  { refine (bool_decide_unpack _ _). vm_compute. exact I. }
  assert (keyset [("location", Sample.L); ("data_weight", VFloat 2.5);
                  ("input_points", Sample.T1)] ∉ variants) as Hks.
  { refine (bool_decide_unpack _ _). vm_compute. exact I. }
  destruct (keyset_outside_variants_raises _ Hwf Hself Hks) as (H1 & H2 & _).
  split; [exact H1|].
  apply (H2 [("input_points", Sample.T1); ("location", Sample.L);
             ("data_weight", VFloat 2.5)]).
  apply (Permutation_cons_append [("location", Sample.L); ("data_weight", VFloat 2.5)]).
Defined.


(** The rejected sets of names the class documentation does not list: no
    name at all, one name alone, all three at once. *)
Example call_no_keyword :
  call [] [] = Raise (ValueError (msg_keys [])).
Proof. vm_compute. reflexivity. Qed.

Example call_input_points_alone :
  call [] [("input_points", Sample.T1)]
  = Raise (ValueError (msg_keys ["input_points"])).
Proof. vm_compute. reflexivity. Qed.

Example call_location_alone :
  call [] [("data_weight", VFloat 2.5); ("location", Sample.L)]
  = Raise (ValueError (msg_keys ["location"])).
Proof. vm_compute. reflexivity. Qed.

Example call_three_names :
  call [] [("input_points", Sample.T1); ("output_points", Sample.T2);
           ("function", Sample.f1)]
  = Raise (ValueError (msg_keys ["input_points"; "output_points"; "function"])).
Proof. vm_compute. reflexivity. Qed.

Lemma has_type_del kw k c :
  k ≠ "data_weight" →
  _dictvalue_isinstance (dict_del kw "data_weight") k c = true ↔ has_type kw k c.
Proof.
  intros Hk. rewrite dictvalue_isinstance_true. unfold has_type.
  by rewrite dict_get_del_ne.
Qed.

Lemma ill_typed_del kw k c :
  k ≠ "data_weight" →
  _dictvalue_isinstance (dict_del kw "data_weight") k c = false ↔ ill_typed kw k c.
Proof.
  intros Hk. rewrite dictvalue_isinstance_false. unfold ill_typed.
  by rewrite dict_get_del_ne.
Qed.

Lemma call_Ok kw :
  dict_wf kw → keyset kw ∈ variants →
  has_type kw "input_points" LabelTensor →
  has_type kw "output_points" LabelTensor →
  has_type kw "location" Location →
  function_ok kw →
  ∃ obj, call [] kw = Ok obj.
Proof.
  intros Hwf Hks Hip Hop Hloc Hfn.
  rewrite call_run by (by apply variants_no_self). simpl.
  apply rejected_keyset in Hks; [|done]. rewrite Hks.
  apply has_type_del in Hip, Hop, Hloc; [|done..].
  rewrite Hip, Hop, Hloc. simpl.
  rewrite function_items_normalize, dict_get_del_ne by done.
  destruct (first_noncallable 0 _) as [i|] eqn:Hfirst; [|eauto].
  exfalso. assert (first_noncallable 0
    (if dict_get kw "function" is Some f then function_seq f else []) = None)
    as Hnone; [|congruence].
  apply first_noncallable_None.
  destruct (dict_get kw "function") as [f|] eqn:Hf; [by apply Hfn | constructor].
Qed.

(** C2: a call whose keyword names are one of the three accepted sets,
    with a [LabelTensor] for each of [input_points] and [output_points], a
    [Location] for [location], and a callable or a list of callables for
    [function], returns.  The slots of the instance that hold a value are
    the names given and [data_weight]; [data_weight] holds the value
    given, and 1.0 when none was; every other field given but [function]
    holds the value given; reading any other name of [__slots__] raises
    [AttributeError]. *)
Theorem valid_call_populates_exactly kw :
  dict_wf kw → keyset kw ∈ variants →
  has_type kw "input_points" LabelTensor →
  has_type kw "output_points" LabelTensor →
  has_type kw "location" Location →
  function_ok kw →
  ∃ obj,
    call [] kw = Ok obj
    ∧ dom obj = keyset kw ∪ {["data_weight"]}
    ∧ getattr obj "data_weight" = Ok (weight kw)
    ∧ (dict_get kw "data_weight" = None →
       getattr obj "data_weight" = Ok (VFloat 1.0))
    ∧ (∀ k v, k ∈ keyset kw → k ≠ "function" → dict_get kw k = Some v →
       getattr obj k = Ok v)
    ∧ (∀ k, k ∈ __slots__ → k ∉ keyset kw → k ≠ "data_weight" →
       getattr obj k = Raise (AttributeError k) ∧ hasattr obj k = false).
Proof.
  intros Hwf Hks Hip Hop Hloc Hfn.
  destruct (call_Ok kw) as [obj Hobj]; try done.
  exists obj. pose proof (call_Ok_dom _ _ _ Hwf Hobj) as Hdom.
  assert (getattr obj "data_weight" = Ok (weight kw)) as Hw.
  { unfold getattr. by rewrite (call_Ok_lookup _ _ _ _ Hobj). }
  split_and!; try done.
  - intros Hnone. rewrite Hw. unfold weight. by rewrite Hnone.
  - intros k v Hk Hfun Hget. unfold getattr.
    rewrite (call_Ok_lookup _ _ _ _ Hobj).
    rewrite decide_False by (unfold keyset in Hk; set_solver).
    by rewrite decide_False, Hget.
  - intros k _ Hk Hdw.
    assert (obj !! k = None) as Hnone.
    { apply not_elem_of_dom. rewrite Hdom. set_solver. }
    unfold hasattr, getattr. by rewrite Hnone.
Qed.

Lemma valid_call_populates_exactly_witness :
  ∃ obj,
    call [] [("output_points", Sample.T2); ("input_points", Sample.T1)] = Ok obj
    ∧ dom obj = {["input_points"; "output_points"; "data_weight"]}
    ∧ getattr obj "data_weight" = Ok (VFloat 1.0)
    ∧ getattr obj "input_points" = Ok Sample.T1
    ∧ getattr obj "output_points" = Ok Sample.T2
    ∧ getattr obj "location" = Raise (AttributeError "location")
    ∧ getattr obj "function" = Raise (AttributeError "function").
Proof.
  set (kw := [("output_points", Sample.T2); ("input_points", Sample.T1)]).
  assert (dict_wf kw) as Hwf by by_computation.
  assert (keyset kw ∈ variants) as Hks by by_computation.
  assert (has_type kw "input_points" LabelTensor) as Hip
    by (intros v [= <-]; reflexivity).
  assert (has_type kw "output_points" LabelTensor) as Hop
    by (intros v [= <-]; reflexivity).
  assert (has_type kw "location" Location) as Hloc by (intros v [=]).
  assert (function_ok kw) as Hfn by (intros v [=]).
  destruct (valid_call_populates_exactly kw Hwf Hks Hip Hop Hloc Hfn)
    as (obj & Hcall & Hdom & Hw & Hw1 & Hgiven & Hother).
  exists obj. split_and!.
  - exact Hcall.
  - rewrite Hdom. by_computation.
  - by apply Hw1.
  - apply Hgiven; [by_computation | done | reflexivity].
  - apply Hgiven; [by_computation | done | reflexivity].
  - apply Hother; [by_computation | by_computation | done].
  - apply Hother; [by_computation | by_computation | done].
Defined.

(** C3: a call with a positional argument raises the [ValueError]
    "Condition takes only the following keyword arguments ...", whatever
    the keywords that reach the body are (none is named [self], which the
    binding of the arguments refuses beforehand).  When it is raised
    [data_weight] has been popped and stored, and nothing else has
    happened: the keys and the values of the remaining keywords have not
    been looked at. *)
Theorem positional_argument_raises args kw :
  args ≠ [] → "self" ∉ dict_keys kw →
  call args kw = Raise (ValueError msg_args)
  ∧ __init__ args (Frame ∅ kw)
    = (Raise (ValueError msg_args),
       Frame (<["data_weight" := weight kw]> ∅) (dict_del kw "data_weight")).
Proof.
  intros Hargs Hself%no_self_iff.
  assert (bool_decide (length args ≠ 0) = true) as Hlen.
  { apply bool_decide_eq_true. by destruct args. }
  split.
  - rewrite call_run by done. simpl. by rewrite Hlen.
  - rewrite init_run. simpl. by rewrite Hlen.
Qed.

Lemma positional_argument_raises_witness :
  call [VInt 7] [("input_points", Sample.T1); ("output_points", Sample.T2)]
    = Raise (ValueError msg_args)
  ∧ call [Sample.T1] [("location", VInt 3)] = Raise (ValueError msg_args).
Proof.
  split.
  - apply (positional_argument_raises [VInt 7]
             [("input_points", Sample.T1); ("output_points", Sample.T2)]).
    + discriminate.
    + by_computation.
  - apply (positional_argument_raises [Sample.T1] [("location", VInt 3)]).
    + discriminate.
    + by_computation.
Defined.

Lemma isinstance_list_false f :
  isinstance f list_ = false → function_seq f = [f].
Proof. by destruct f. Qed.

Lemma call_Ok_function args kw obj f :
  call args kw = Ok obj → dict_get kw "function" = Some f →
  getattr obj "function" = Ok (wrap f)
  ∧ Forall (λ x, callable x = true) (function_seq f).
Proof.
  intros Hcall Hf. split.
  - unfold getattr. rewrite (call_Ok_lookup _ _ _ _ Hcall). simpl.
    by rewrite Hf.
  - apply call_Ok_inv in Hcall as (_ & _ & _ & _ & _ & Hnone & _).
    rewrite function_items_normalize, dict_get_del_ne, Hf in Hnone by done.
    by apply first_noncallable_None in Hnone.
Qed.

(** C4: in a call that returns and was given [function]: a value that is
    not a list is callable and is stored as the list of that one value; a
    list is stored as it is, the same elements in the same order. *)
Theorem function_stored_as_list args kw obj f :
  call args kw = Ok obj → dict_get kw "function" = Some f →
  (isinstance f list_ = false →
   callable f = true ∧ getattr obj "function" = Ok (VList [f]))
  ∧ (∀ xs, f = VList xs → getattr obj "function" = Ok (VList xs)).
Proof.
  intros Hcall Hf.
  destruct (call_Ok_function _ _ _ _ Hcall Hf) as [Hget Hall]. split.
  - intros Hl. rewrite (isinstance_list_false _ Hl) in Hall.
    split; [by inversion Hall|].
    rewrite Hget. unfold wrap. by rewrite Hl.
  - intros xs ->. by rewrite Hget.
Qed.

Lemma function_stored_as_list_witness :
  (∃ obj, call [] [("location", Sample.L); ("function", Sample.f1)] = Ok obj
          ∧ getattr obj "function" = Ok (VList [Sample.f1]))
  ∧ (∃ obj, call [] [("input_points", Sample.T1);
                     ("function", VList [Sample.f1; Sample.f2])] = Ok obj
            ∧ getattr obj "function" = Ok (VList [Sample.f1; Sample.f2])).
Proof.
  split.
  - destruct (call [] [("location", Sample.L); ("function", Sample.f1)])
      as [obj|e] eqn:Hcall; [|vm_compute in Hcall; discriminate Hcall].
    exists obj. split; [reflexivity|].
    destruct (function_stored_as_list _ _ _ Sample.f1 Hcall eq_refl) as [H1 _].
    apply H1. reflexivity.
  - destruct (call [] [("input_points", Sample.T1);
                        ("function", VList [Sample.f1; Sample.f2])])
      as [obj|e] eqn:Hcall; [|vm_compute in Hcall; discriminate Hcall].
    exists obj. split; [reflexivity|].
    destruct (function_stored_as_list _ _ _ (VList [Sample.f1; Sample.f2])
                Hcall eq_refl) as [_ H2].
    apply H2. reflexivity.
Defined.

(** Against C5 as stated: an empty list of functions passes every check
    (the loop over it has nothing to reject) and is stored, empty. *)
Lemma empty_function_list_accepted :
  ∃ obj, call [] [("location", Sample.L); ("function", VList [])] = Ok obj
         ∧ getattr obj "function" = Ok (VList []).
Proof. eexists. split; vm_compute; reflexivity. Qed.

(** C5, as the code has it: in an instance a call returned, a [function]
    attribute that can be read is a list whose elements are all callable;
    the list is empty only when the call was given the empty list as
    [function]. *)
Theorem function_attribute_callables args kw obj v :
  call args kw = Ok obj → getattr obj "function" = Ok v →
  ∃ xs, v = VList xs ∧ Forall (λ x, callable x = true) xs
        ∧ (xs = [] → dict_get kw "function" = Some (VList [])).
Proof.
  intros Hcall Hv.
  destruct (dict_get kw "function") as [f|] eqn:Hf.
  - destruct (call_Ok_function _ _ _ _ Hcall Hf) as [Hget Hall].
    rewrite Hget in Hv. injection Hv as <-. unfold wrap.
    destruct (isinstance f list_) eqn:Hl.
    + destruct f; try discriminate Hl. exists xs. split_and!; [done|done|].
      by intros ->.
    + exists [f]. rewrite (isinstance_list_false _ Hl) in Hall.
      split_and!; done.
  - unfold getattr in Hv. rewrite (call_Ok_lookup _ _ _ _ Hcall) in Hv.
    simpl in Hv. by rewrite Hf in Hv.
Qed.

Lemma function_attribute_callables_witness :
  ∃ obj, call [] [("location", Sample.L); ("function", Sample.f1)] = Ok obj
    ∧ ∃ xs, getattr obj "function" = Ok (VList xs)
            ∧ Forall (λ x, callable x = true) xs.
Proof.
  destruct (call [] [("location", Sample.L); ("function", Sample.f1)])
    as [obj|e] eqn:Hcall; [|vm_compute in Hcall; discriminate Hcall].
  exists obj. split; [reflexivity|].
  destruct (getattr obj "function") as [v|e] eqn:Hv.
  - destruct (function_attribute_callables _ _ _ _ Hcall Hv)
      as (xs & -> & Hall & _).
    exists xs. split; [reflexivity | exact Hall].
  - exfalso. vm_compute in Hcall. injection Hcall as <-.
    vm_compute in Hv. discriminate Hv.
Defined.

(** With [function] among the accepted names, [output_points] is not. *)
Lemma keyset_function_no_output kw f :
  dict_wf kw → keyset kw ∈ variants → dict_get kw "function" = Some f →
  dict_get kw "output_points" = None.
Proof.
  intros Hwf Hks Hf. apply dict_get_None. intros Hop.
  apply dict_get_Some_keys in Hf.
  assert ("function" ∈ keyset kw) as Hfk by (unfold keyset; set_solver).
  assert ("output_points" ∈ keyset kw) as Hok by (unfold keyset; set_solver).
  unfold variants in Hks. rewrite !elem_of_cons, elem_of_nil in Hks.
  destruct Hks as [Heq|[Heq|[Heq|[]]]]; rewrite Heq in Hfk, Hok; set_solver.
Qed.

(** C6: in a call that reaches the loop over the functions (no positional
    argument, an accepted set of names, [input_points] and [location] of
    their classes when given), if the element at index [i] of the sequence
    of functions is not callable and every element before it is, the call
    raises the [TypeError] "`function[i]` must be a callable function.";
    later elements play no part. *)
Theorem first_noncallable_reported kw f i x :
  dict_wf kw → keyset kw ∈ variants →
  has_type kw "input_points" LabelTensor →
  has_type kw "location" Location →
  dict_get kw "function" = Some f →
  function_seq f !! i = Some x → callable x = false →
  Forall (λ y, callable y = true) (take i (function_seq f)) →
  call [] kw = Raise (TypeError (msg_function i)).
Proof.
  intros Hwf Hks Hip Hloc Hf Hi Hx Hpre.
  rewrite call_run by (by apply variants_no_self). simpl.
  pose proof (keyset_function_no_output _ _ Hwf Hks Hf) as Hnop.
  apply rejected_keyset in Hks; [|done]. rewrite Hks.
  apply has_type_del in Hip, Hloc; [|done..]. rewrite Hip, Hloc. simpl.
  assert (_dictvalue_isinstance (dict_del kw "data_weight") "output_points"
            LabelTensor = true) as ->.
  { apply has_type_del; [done|]. intros v Hv. congruence. }
  simpl. rewrite function_items_normalize, dict_get_del_ne, Hf by done.
  assert (first_noncallable 0 (function_seq f) = Some i) as ->; [|done].
  apply first_noncallable_Some. exists i, x. split_and!; done.
Qed.

Lemma first_noncallable_reported_witness :
  call [] [("input_points", Sample.T1);
           ("function", VList [Sample.f1; VInt 3; Sample.f2; VNone])]
  = Raise (TypeError (msg_function 1)).
Proof.
  apply (first_noncallable_reported
           [("input_points", Sample.T1);
            ("function", VList [Sample.f1; VInt 3; Sample.f2; VNone])]
           (VList [Sample.f1; VInt 3; Sample.f2; VNone]) 1 (VInt 3)).
  - by_computation.
  - by_computation.
  - intros v [= <-]. reflexivity.
  - intros v [=].
  - reflexivity.
  - reflexivity.
  - reflexivity.
  - simpl. repeat constructor.
Defined.

(** With [location] among the accepted names, [input_points] and
    [output_points] are not. *)
Lemma keyset_location_alone kw v :
  dict_wf kw → keyset kw ∈ variants → dict_get kw "location" = Some v →
  dict_get kw "input_points" = None ∧ dict_get kw "output_points" = None.
Proof.
  intros Hwf Hks Hv. apply dict_get_Some_keys in Hv.
  assert ("location" ∈ keyset kw) as Hlk by (unfold keyset; set_solver).
  unfold variants in Hks. rewrite !elem_of_cons, elem_of_nil in Hks.
  split; apply dict_get_None; intros Hk;
    [assert ("input_points" ∈ keyset kw) as Hk' by (unfold keyset; set_solver)
    |assert ("output_points" ∈ keyset kw) as Hk' by (unfold keyset; set_solver)];
    destruct Hks as [Heq|[Heq|[Heq|[]]]]; rewrite Heq in Hlk, Hk'; set_solver.
Qed.

(** C7: in a call without positional arguments and with an accepted set
    of names, a given [input_points] that is no [LabelTensor] raises the
    [TypeError] "`input_points` must be a torch.Tensor."; otherwise a given
    [output_points] that is no [LabelTensor] raises "`output_points` must
    be a torch.Tensor."; and a given [location] that is no [Location]
    raises "`location` must be a Location.".  No instance is returned. *)
Theorem ill_typed_field_raises kw :
  dict_wf kw → keyset kw ∈ variants →
  (ill_typed kw "input_points" LabelTensor →
   call [] kw = Raise (TypeError msg_input_points))
  ∧ (¬ ill_typed kw "input_points" LabelTensor →
     ill_typed kw "output_points" LabelTensor →
     call [] kw = Raise (TypeError msg_output_points))
  ∧ (ill_typed kw "location" Location →
     call [] kw = Raise (TypeError msg_location)).
Proof.
  intros Hwf Hks. pose proof Hks as Hacc.
  pose proof (variants_no_self _ Hks) as Hself.
  apply rejected_keyset in Hacc; [|done].
  split_and!.
  - intros Hip%ill_typed_del; [|done].
    rewrite call_run by done. simpl. by rewrite Hacc, Hip.
  - intros Hip Hop%ill_typed_del; [|done].
    rewrite call_run by done. simpl. rewrite Hacc, Hop.
    destruct (_dictvalue_isinstance _ "input_points" _) eqn:Hip'; [done|].
    by apply ill_typed_del in Hip'.
  - intros Hloc. destruct Hloc as (v & Hv & Hloc).
    destruct (keyset_location_alone _ _ Hwf Hks Hv) as [Hnip Hnop].
    rewrite call_run by done. simpl. rewrite Hacc.
    assert (_dictvalue_isinstance (dict_del kw "data_weight") "input_points"
              LabelTensor = true) as ->.
    { apply has_type_del; [done|]. intros ? ?. congruence. }
    assert (_dictvalue_isinstance (dict_del kw "data_weight") "output_points"
              LabelTensor = true) as ->.
    { apply has_type_del; [done|]. intros ? ?. congruence. }
    assert (_dictvalue_isinstance (dict_del kw "data_weight") "location"
              Location = false) as ->; [|done].
    apply ill_typed_del; [done|]. by exists v.
Qed.

Lemma ill_typed_field_raises_witness :
  call [] [("input_points", VInt 5); ("output_points", Sample.T2)]
    = Raise (TypeError msg_input_points)
  ∧ call [] [("input_points", Sample.T1); ("output_points", VFloat 0.5)]
    = Raise (TypeError msg_output_points)
  ∧ call [] [("function", Sample.f1); ("location", Sample.T1)]
    = Raise (TypeError msg_location).
Proof.
  split_and!.
  - assert (dict_wf [("input_points", VInt 5); ("output_points", Sample.T2)])
      as Hwf by by_computation.
    assert (keyset [("input_points", VInt 5); ("output_points", Sample.T2)]
            ∈ variants) as Hks by by_computation.
    destruct (ill_typed_field_raises _ Hwf Hks) as (H1 & _ & _).
    apply H1. exists (VInt 5). split; reflexivity.
  - assert (dict_wf [("input_points", Sample.T1); ("output_points", VFloat 0.5)])
      as Hwf by by_computation.
    assert (keyset [("input_points", Sample.T1); ("output_points", VFloat 0.5)]
            ∈ variants) as Hks by by_computation.
    destruct (ill_typed_field_raises _ Hwf Hks) as (_ & H2 & _).
    apply H2.
    + intros (v & [= <-] & Hv). discriminate Hv.
    + exists (VFloat 0.5). split; reflexivity.
  - assert (dict_wf [("function", Sample.f1); ("location", Sample.T1)])
      as Hwf by by_computation.
    assert (keyset [("function", Sample.f1); ("location", Sample.T1)]
            ∈ variants) as Hks by by_computation.
    destruct (ill_typed_field_raises _ Hwf Hks) as (_ & _ & H3).
    apply H3. exists Sample.T1. split; reflexivity.
Defined.

(** [data_weight] takes no part in any check: two dictionaries that differ
    in it alone fare alike, up to the weight that is stored. *)
Lemma call_weight_irrelevant args kw kw' :
  dict_del kw "data_weight" = dict_del kw' "data_weight" →
  call args kw =
  match call args kw' with
  | Ok obj => Ok (<["data_weight" := weight kw]> obj)
  | Raise e => Raise e
  end.
Proof.
  intros Heq.
  assert (dict_contains kw' "self" = dict_contains kw "self") as Hself.
  { rewrite <-(dict_contains_del_ne kw "self" "data_weight") by done.
    rewrite <-(dict_contains_del_ne kw' "self" "data_weight") by done.
    by rewrite Heq. }
  destruct (dict_contains kw "self") eqn:Hs.
  { by rewrite !call_self. }
  rewrite !call_run by done. simpl. rewrite Heq.
  case_bool_decide; [done|].
  destruct (rejected _) eqn:Hacc; [done|].
  repeat (destruct (negb _); [done|]).
  destruct (first_noncallable _ _); [done|]. f_equal.
  apply map_eq. intros k. rewrite store_accepted_lookup by done.
  case_decide as Hk; subst.
  - by rewrite lookup_insert_eq.
  - rewrite lookup_insert_ne by done.
    by rewrite store_accepted_lookup, decide_False.
Qed.

Lemma dict_del_del (kw : dict) k :
  dict_wf kw → dict_del (dict_del kw k) k = dict_del kw k.
Proof.
  intros Hwf. apply dict_del_absent, dict_get_None.
  unfold dict_wf in Hwf. destruct (dict_get kw k) as [v|] eqn:Hget.
  - rewrite (dict_keys_del _ _ _ Hget) in Hwf. by apply NoDup_cons in Hwf as [? _].
  - rewrite dict_del_absent by done. by apply dict_get_None.
Qed.

(** C8: whatever value is given as [data_weight], the call fares as the
    call without it does: it raises the same exception, or returns the
    same instance with that value in [data_weight].  The instance returned
    holds in [data_weight] the very value given, and 1.0 when none was. *)
Theorem data_weight_stored_verbatim args kw :
  dict_wf kw →
  (∀ v, call args (dict_set kw "data_weight" v) =
        match call args (dict_del kw "data_weight") with
        | Ok obj => Ok (<["data_weight" := v]> obj)
        | Raise e => Raise e
        end)
  ∧ (∀ obj v, dict_get kw "data_weight" = Some v → call args kw = Ok obj →
              getattr obj "data_weight" = Ok v)
  ∧ (∀ obj, dict_get kw "data_weight" = None → call args kw = Ok obj →
            getattr obj "data_weight" = Ok (VFloat 1.0)).
Proof.
  intros Hwf. split_and!.
  - intros v.
    rewrite (call_weight_irrelevant args _ (dict_del kw "data_weight")).
    + unfold weight. by rewrite dict_get_set_eq.
    + by rewrite dict_del_set, dict_del_del.
  - intros obj v Hv Hcall. unfold getattr.
    rewrite (call_Ok_lookup _ _ _ _ Hcall). simpl. unfold weight. by rewrite Hv.
  - intros obj Hv Hcall. unfold getattr.
    rewrite (call_Ok_lookup _ _ _ _ Hcall). simpl. unfold weight. by rewrite Hv.
Qed.

Lemma data_weight_stored_verbatim_witness :
  (∃ obj, call [] [("input_points", Sample.T1); ("data_weight", VFloat 2.5);
                   ("function", Sample.f1)] = Ok obj
          ∧ getattr obj "data_weight" = Ok (VFloat 2.5))
  ∧ (∃ obj, call [] [("input_points", Sample.T1); ("data_weight", VStr "heavy");
                     ("function", Sample.f1)] = Ok obj
            ∧ getattr obj "data_weight" = Ok (VStr "heavy"))
  ∧ (∃ obj, call [] [("input_points", Sample.T1); ("function", Sample.f1)]
            = Ok obj
            ∧ getattr obj "data_weight" = Ok (VFloat 1.0)).
Proof.
  split_and!.
  - destruct (call [] [("input_points", Sample.T1); ("data_weight", VFloat 2.5);
                       ("function", Sample.f1)])
      as [obj|e] eqn:Hcall; [|vm_compute in Hcall; discriminate Hcall].
    exists obj. split; [reflexivity|].
    refine (proj1 (proj2 (data_weight_stored_verbatim [] _ _)) obj _ _ Hcall);
      [by_computation | reflexivity].
  - destruct (call [] [("input_points", Sample.T1); ("data_weight", VStr "heavy");
                       ("function", Sample.f1)])
      as [obj|e] eqn:Hcall; [|vm_compute in Hcall; discriminate Hcall].
    exists obj. split; [reflexivity|].
    refine (proj1 (proj2 (data_weight_stored_verbatim [] _ _)) obj _ _ Hcall);
      [by_computation | reflexivity].
  - destruct (call [] [("input_points", Sample.T1); ("function", Sample.f1)])
      as [obj|e] eqn:Hcall; [|vm_compute in Hcall; discriminate Hcall].
    exists obj. split; [reflexivity|].
    refine (proj2 (proj2 (data_weight_stored_verbatim [] _ _)) obj _ Hcall);
      [by_computation | reflexivity].
Defined.

(** ** The run of the constructor on the store *)

Lemma first_false_None {A} (p : A → bool) i xs :
  first_false p i xs = None ↔ Forall (λ x, p x = true) xs.
Proof.
  revert i. induction xs as [|x xs IH]; intros i; simpl.
  - split; [constructor | done].
  - destruct (p x) eqn:Hx.
    + rewrite IH. split; [by constructor | by inversion 1].
    + split; [done | inversion 1; congruence].
Qed.
















(** ** Further properties of the class *)

(** *** Which calls return *)

(** X2: a call returns exactly when it has no positional argument, its
    set of names is one of the three accepted ones, each of
    [input_points], [output_points], [location] that is given is of its
    class, and a given [function] is a callable or a list of callables. *)
Theorem call_returns_iff args kw :
  dict_wf kw →
  is_Ok (call args kw) = true ↔
  args = [] ∧ keyset kw ∈ variants
  ∧ has_type kw "input_points" LabelTensor
  ∧ has_type kw "output_points" LabelTensor
  ∧ has_type kw "location" Location
  ∧ function_ok kw.
Proof.
  intros Hwf. split.
  - destruct (call args kw) as [obj|e] eqn:Hcall; [intros _|done].
    pose proof (call_Ok_inv _ _ _ Hcall) as (-> & Hacc & Hip & Hop & Hloc & _).
    split_and!; try done.
    + by apply rejected_keyset.
    + by apply has_type_del in Hip.
    + by apply has_type_del in Hop.
    + by apply has_type_del in Hloc.
    + intros f Hf. by destruct (call_Ok_function _ _ _ _ Hcall Hf).
  - intros (-> & Hks & Hip & Hop & Hloc & Hfn).
    destruct (call_Ok kw) as [obj ->]; done.
Qed.

Lemma call_returns_iff_witness :
  is_Ok (call [] [("function", VList [Sample.f1; Sample.f2]);
                  ("data_weight", VInt 2); ("location", Sample.L)]) = true.
Proof.
  apply (call_returns_iff []
           [("function", VList [Sample.f1; Sample.f2]);
            ("data_weight", VInt 2); ("location", Sample.L)]).
  - by_computation.
  - split_and!.
    + reflexivity.
    + by_computation.
    + intros v [=].
    + intros v [=].
    + intros v [= <-]. reflexivity.
    + intros f [= <-]. simpl. repeat constructor.
Defined.

(** *** What every returned instance satisfies *)

Lemma call_Ok_field_type args kw obj k c v :
  call args kw = Ok obj → k ≠ "data_weight" → k ≠ "function" →
  _dictvalue_isinstance (dict_del kw "data_weight") k c = true →
  getattr obj k = Ok v → isinstance v c = true.
Proof.
  intros Hcall Hk1 Hk2 Hkc Hv. apply has_type_del in Hkc; [|done].
  apply Hkc. unfold getattr in Hv.
  rewrite (call_Ok_lookup _ _ _ _ Hcall), !decide_False in Hv by done.
  destruct (dict_get kw k); by simplify_eq.
Qed.

Lemma call_Ok_dom_variants args kw obj :
  call args kw = Ok obj → dom obj ∖ {["data_weight"]} ∈ variants.
Proof.
  intros (_ & Hacc & _ & _ & _ & _ & ->)%call_Ok_inv.
  rewrite store_dom, normalize_keys, dom_insert_L, dom_empty_L.
  unfold variants. rewrite !elem_of_cons.
  apply rejected_false in Hacc as [Hp|[Hp|Hp]]; rewrite Hp;
    [left | right; left | right; right; left]; set_solver.
Qed.

(** X3: in an instance a call returned, [data_weight] holds a value, the
    other slots that hold one form one of the three accepted sets of
    names, and [input_points], [output_points] and [location], when they
    can be read, hold a [LabelTensor], a [LabelTensor] and a [Location]. *)
Theorem returned_instance_invariant args kw obj :
  call args kw = Ok obj →
  hasattr obj "data_weight" = true
  ∧ dom obj ∖ {["data_weight"]} ∈ variants
  ∧ (∀ v, getattr obj "input_points" = Ok v → isinstance v LabelTensor = true)
  ∧ (∀ v, getattr obj "output_points" = Ok v → isinstance v LabelTensor = true)
  ∧ (∀ v, getattr obj "location" = Ok v → isinstance v Location = true).
Proof.
  intros Hcall.
  pose proof (call_Ok_inv _ _ _ Hcall) as (_ & _ & Hip & Hop & Hloc & _).
  split_and!.
  - unfold hasattr, getattr. by rewrite (call_Ok_lookup _ _ _ _ Hcall).
  - by eapply call_Ok_dom_variants.
  - intros v. by eapply call_Ok_field_type.
  - intros v. by eapply call_Ok_field_type.
  - intros v. by eapply call_Ok_field_type.
Qed.

Lemma returned_instance_invariant_witness :
  ∃ obj,
    call [] [("input_points", Sample.T1); ("function", Sample.f1)] = Ok obj
    ∧ hasattr obj "data_weight" = true
    ∧ dom obj ∖ {["data_weight"]} ∈ variants.
Proof.
  destruct (call [] [("input_points", Sample.T1); ("function", Sample.f1)])
    as [obj|e] eqn:Hcall; [|vm_compute in Hcall; discriminate Hcall].
  destruct (returned_instance_invariant _ _ _ Hcall) as (Hw & Hdom & _).
  exists obj. split_and!; [reflexivity | exact Hw | exact Hdom].
Defined.

(** *** How a call can fail *)

(** X4: an exception that leaves the constructor is one of seven: the
    [TypeError] of the binding step for a keyword named [self]; the two
    [ValueError]s (positional arguments; the names given); the three
    [TypeError]s on [input_points], [output_points] and [location]; or the
    [TypeError] on [function[i]] with [i] an index of the sequence of
    functions given.  No [AttributeError] and no [KeyError] escapes: the
    dictionary lookups and the [setattr]s inside cannot fail. *)
Theorem call_raises_only args kw e :
  call args kw = Raise e →
  (e = TypeError msg_self ∧ "self" ∈ dict_keys kw)
  ∨ ((e = ValueError msg_args
       ∨ e = ValueError (msg_keys (dict_keys (dict_del kw "data_weight")))
       ∨ e = TypeError msg_input_points
       ∨ e = TypeError msg_output_points
       ∨ e = TypeError msg_location
       ∨ ∃ f i, dict_get kw "function" = Some f
                ∧ i < length (function_seq f)
                ∧ e = TypeError (msg_function i))
      ∧ "self" ∉ dict_keys kw).
Proof.
  destruct (dict_contains kw "self") eqn:Hself.
  { rewrite call_self by done. intros [= <-]. left. split; [done|].
    unfold dict_contains in Hself. by apply bool_decide_eq_true in Hself. }
  rewrite call_run by done. simpl. intros Hraise.
  right. split; [|by apply no_self_iff]. revert Hraise.
  case_bool_decide; [intros [= <-]; auto|].
  destruct (rejected _); [intros [= <-]; auto|].
  destruct (negb _); [intros [= <-]; auto 6|].
  destruct (negb _); [intros [= <-]; auto 6|].
  destruct (negb _); [intros [= <-]; auto 6|].
  rewrite function_items_normalize, dict_get_del_ne by done.
  destruct (first_noncallable 0 _) as [i|] eqn:Hi; [|done].
  intros [= <-]. do 5 right.
  destruct (dict_get kw "function") as [f|]; [|done].
  apply first_noncallable_Some in Hi as (n & x & -> & Hn & _).
  exists f, n. split_and!; [done | | done].
  by apply lookup_lt_Some in Hn.
Qed.

Lemma call_raises_only_witness :
  (∃ f i, dict_get [("location", Sample.L); ("function", VTuple [Sample.f1])]
            "function" = Some f
          ∧ i < length (function_seq f)
          ∧ TypeError (msg_function 0) = TypeError (msg_function i))
  ∧ call [VInt 7] [("self", VInt 1)] = Raise (TypeError msg_self).
Proof.
  split.
  - destruct (call_raises_only []
                [("location", Sample.L); ("function", VTuple [Sample.f1])]
                (TypeError (msg_function 0)))
      as [[He _]|[[He|[He|[He|[He|[He|He]]]]] _]];
      [vm_compute; reflexivity | discriminate He .. | exact He].
  - destruct (call [VInt 7] [("self", VInt 1)]) as [obj|e] eqn:Hcall;
      [vm_compute in Hcall; discriminate Hcall|].
    destruct (call_raises_only _ _ _ Hcall) as [[-> _]|[_ Hno]];
      [reflexivity|].
    exfalso. apply Hno. by_computation.
Defined.

(** X5: when a call of [__init__] on a new instance raises, the instance
    holds no value at all if the binding step refused a keyword named
    [self], and [data_weight] alone otherwise: the given fields are stored
    only after every check has passed. *)
Theorem failed_init_stores_weight_only args kw e obj :
  init_call ∅ args kw = (Raise e, obj) →
  (obj = ∅ ∧ "self" ∈ dict_keys kw)
  ∨ (obj = <["data_weight" := weight kw]> ∅ ∧ "self" ∉ dict_keys kw).
Proof.
  unfold init_call, bind_kwargs.
  destruct (dict_contains kw "self") eqn:Hself.
  { intros [= _ <-]. left. split; [done|].
    unfold dict_contains in Hself. by apply bool_decide_eq_true in Hself. }
  intros Hrun. right. split; [|by apply no_self_iff]. revert Hrun.
  rewrite init_run. simpl.
  case_bool_decide; [by intros [= _ <-]|].
  destruct (rejected _) eqn:Hacc; [by intros [= _ <-]|].
  destruct (negb _); [by intros [= _ <-]|].
  destruct (negb _); [by intros [= _ <-]|].
  destruct (negb _); [by intros [= _ <-]|].
  destruct (first_noncallable 0 _); [by intros [= _ <-]|].
  rewrite run_store; [done|].
  rewrite normalize_keys. by apply accepted_slots.
Qed.

Lemma failed_init_stores_weight_only_witness :
  ∃ e obj,
    init_call ∅ [] [("input_points", Sample.T1); ("data_weight", VInt 4);
                    ("function", VList [Sample.f1; VNone])]
    = (Raise e, obj)
    ∧ obj = <["data_weight" := VInt 4]> ∅.
Proof.
  destruct (init_call ∅ [] [("input_points", Sample.T1);
                            ("data_weight", VInt 4);
                            ("function", VList [Sample.f1; VNone])])
    as [[u|e] obj] eqn:Hrun; [vm_compute in Hrun; discriminate Hrun|].
  exists e, obj. split; [reflexivity|].
  destruct (failed_init_stores_weight_only _ _ _ _ Hrun) as [[_ Hin]|[-> _]];
    [|reflexivity].
  exfalso. revert Hin. by_computation.
Defined.

(** *** The order of the keywords *)

Lemma dict_get_Some_elem (d : dict) k v :
  dict_wf d → dict_get d k = Some v ↔ (k, v) ∈ d.
Proof.
  unfold dict_wf, dict_keys. induction d as [|[k' v'] d IH]; simpl; intros Hwf.
  - split; [done | by intros ?%elem_of_nil].
  - apply NoDup_cons in Hwf as [Hk' Hwf]. rewrite elem_of_cons.
    case_decide as Hk; subst.
    + split; [intros [= ->]; by left|].
      intros [[= ->]|Hin]; [done|].
      destruct Hk'. apply list_elem_of_fmap. by exists (k, v).
    + rewrite IH by done. split; [by right|].
      intros [[= -> ->]|?]; done.
Qed.

Lemma dict_get_perm (d d' : dict) k :
  dict_wf d → d' ≡ₚ d → dict_get d' k = dict_get d k.
Proof.
  intros Hwf Hp. pose proof (dict_wf_perm _ _ Hp Hwf) as Hwf'.
  apply option_eq. intros v.
  rewrite !dict_get_Some_elem by done. by rewrite Hp.
Qed.

Lemma dict_del_filter (d : dict) k :
  dict_wf d → dict_del d k = filter (λ kv, kv.1 ≠ k) d.
Proof.
  unfold dict_wf, dict_keys. induction d as [|[k' v'] d IH]; simpl; intros Hwf.
  - done.
  - apply NoDup_cons in Hwf as [Hk' Hwf]. case_decide as Hk; subst.
    + rewrite filter_cons_False by (simpl; auto).
      rewrite <-IH by done. symmetry.
      by apply dict_del_absent, dict_get_None.
    + rewrite filter_cons_True by done. f_equal. auto.
Qed.

Lemma dict_del_perm (d d' : dict) k :
  dict_wf d → d' ≡ₚ d → dict_del d' k ≡ₚ dict_del d k.
Proof.
  intros Hwf Hp. pose proof (dict_wf_perm _ _ Hp Hwf) as Hwf'.
  rewrite !dict_del_filter by done. by rewrite Hp.
Qed.

Lemma dictvalue_isinstance_perm (d d' : dict) k c :
  dict_wf d → d' ≡ₚ d →
  _dictvalue_isinstance d' k c = _dictvalue_isinstance d k c.
Proof.
  intros Hwf Hp. unfold _dictvalue_isinstance.
  by rewrite !dict_contains_get, (dict_get_perm d d').
Qed.

Lemma rejected_perm ks ks' : ks' ≡ₚ ks → rejected ks' = rejected ks.
Proof.
  intros Hp. unfold rejected.
  by rewrite (proj2 (sorted_eq_iff ks' ks) Hp).
Qed.

(** X6: giving the same keywords in another order changes nothing but the
    order in which the "Invalid keyword arguments" message lists them: the
    two calls return the same instance, or raise the same exception, or
    both raise that [ValueError], each with its own order of the names. *)
Theorem keyword_order_irrelevant args kw kw' :
  dict_wf kw → kw' ≡ₚ kw →
  call args kw' = call args kw
  ∨ (call args kw
       = Raise (ValueError (msg_keys (dict_keys (dict_del kw "data_weight"))))
     ∧ call args kw'
       = Raise (ValueError (msg_keys (dict_keys (dict_del kw' "data_weight"))))).
Proof.
  intros Hwf Hp.
  pose proof (dict_del_perm _ _ "data_weight" Hwf Hp) as Hp1.
  pose proof (dict_wf_del _ "data_weight" Hwf) as Hwf1.
  assert (dict_keys (dict_del kw' "data_weight")
          ≡ₚ dict_keys (dict_del kw "data_weight")) as Hks
    by (unfold dict_keys; by rewrite Hp1).
  pose proof (dict_contains_perm _ _ "self" Hp) as Hself.
  destruct (dict_contains kw "self") eqn:Hs.
  { left. by rewrite !call_self. }
  rewrite !call_run by done. simpl.
  case_bool_decide; [by left|].
  rewrite (rejected_perm _ _ Hks).
  destruct (rejected _) eqn:Hacc; [by right|]. left.
  rewrite !(dictvalue_isinstance_perm _ _ _ _ Hwf1 Hp1).
  repeat (destruct (negb _); [done|]).
  rewrite !function_items_normalize, (dict_get_perm _ _ _ Hwf1 Hp1).
  destruct (first_noncallable 0 _); [done|]. f_equal.
  apply map_eq. intros k.
  rewrite !store_accepted_lookup; [| done | by rewrite (rejected_perm _ _ Hks)].
  unfold weight. rewrite (dict_get_perm _ _ _ Hwf Hp).
  case_decide; [done|].
  rewrite !normalize_get, !(dict_get_perm _ _ _ Hwf1 Hp1). done.
Qed.

Lemma keyword_order_irrelevant_witness :
  call [] [("function", Sample.f1); ("data_weight", VFloat 2.5);
           ("location", Sample.L)]
  = call [] [("location", Sample.L); ("function", Sample.f1);
             ("data_weight", VFloat 2.5)].
Proof.
  destruct (keyword_order_irrelevant []
              [("location", Sample.L); ("function", Sample.f1);
               ("data_weight", VFloat 2.5)]
              [("function", Sample.f1); ("data_weight", VFloat 2.5);
               ("location", Sample.L)])
    as [Heq|[Hraise _]].
  - by_computation.
  - symmetry. apply (Permutation_cons_append
                       [("function", Sample.f1); ("data_weight", VFloat 2.5)]).
  - exact Heq.
  - vm_compute in Hraise. discriminate Hraise.
Defined.

(** *** Building an instance again from its own attributes *)

Lemma dict_get_map_to_list (obj : instance) k :
  dict_get (map_to_list obj) k = obj !! k.
Proof.
  apply option_eq. intros v.
  rewrite dict_get_Some_elem by apply NoDup_fst_map_to_list.
  apply elem_of_map_to_list.
Qed.

Lemma wrap_function_seq f : function_seq (wrap f) = function_seq f.
Proof. unfold wrap. destruct (isinstance f list_) eqn:Hl; [done|]. by destruct f. Qed.

Lemma wrap_wrap f : wrap (wrap f) = wrap f.
Proof.
  unfold wrap. destruct (isinstance f list_) eqn:Hl; [by rewrite Hl | done].
Qed.

(** X7: the attributes of an instance a call returned, given back as
    keywords, build the same instance: every stored field passes its
    check again, and a stored list of functions is not wrapped twice. *)
Theorem rebuild_from_attributes args kw obj :
  call args kw = Ok obj → call [] (map_to_list obj) = Ok obj.
Proof.
  intros Hcall.
  pose proof (call_Ok_dom_variants _ _ _ Hcall) as Hdom.
  pose proof (call_Ok_inv _ _ _ Hcall) as (_ & _ & Hip & Hop & Hloc & _).
  set (kw2 := map_to_list obj).
  assert (dict_wf kw2) as Hwf2 by apply NoDup_fst_map_to_list.
  assert (keyset kw2 = dom obj ∖ {["data_weight"]}) as Hks.
  { unfold keyset. apply set_eq. intros k.
    rewrite !elem_of_difference, elem_of_list_to_set, elem_of_dom.
    rewrite <-dict_get_map_to_list. fold kw2.
    destruct (dict_get kw2 k) as [v|] eqn:Hget.
    - apply dict_get_Some_keys in Hget. split; intros [_ ?]; split; eauto.
    - apply dict_get_None in Hget. split; [tauto | by intros [[? ?] _]]. }
  assert (∀ k c, k ≠ "data_weight" → k ≠ "function" →
            _dictvalue_isinstance (dict_del kw "data_weight") k c = true →
            has_type kw2 k c) as Htype.
  { intros k c Hk1 Hk2 Hkc v Hv. unfold kw2 in Hv.
    rewrite dict_get_map_to_list in Hv.
    apply (call_Ok_field_type _ _ _ k c v Hcall); try done.
    unfold getattr. by rewrite Hv. }
  destruct (call_Ok kw2) as [obj' Hcall'];
    [done | by rewrite Hks | by apply Htype.. | |].
  { intros f Hf. unfold kw2 in Hf. rewrite dict_get_map_to_list in Hf.
    rewrite (call_Ok_lookup _ _ _ _ Hcall) in Hf. simpl in Hf.
    destruct (dict_get kw "function") as [f0|] eqn:Hf0; [|done].
    injection Hf as <-. rewrite wrap_function_seq.
    by destruct (call_Ok_function _ _ _ _ Hcall Hf0). }
  rewrite Hcall'. f_equal. apply map_eq. intros k.
  rewrite (call_Ok_lookup _ _ _ _ Hcall'). unfold weight, kw2.
  rewrite !dict_get_map_to_list.
  rewrite !(call_Ok_lookup _ _ _ _ Hcall). simpl.
  case_decide; [done|]. case_decide; [|done].
  destruct (dict_get kw "function"); simpl; [|done]. by rewrite wrap_wrap.
Qed.

Lemma rebuild_from_attributes_witness :
  ∃ obj,
    call [] [("location", Sample.L); ("function", Sample.f1);
             ("data_weight", VFloat 2.5)] = Ok obj
    ∧ call [] (map_to_list obj) = Ok obj.
Proof.
  destruct (call [] [("location", Sample.L); ("function", Sample.f1);
                     ("data_weight", VFloat 2.5)])
    as [obj|e] eqn:Hcall; [|vm_compute in Hcall; discriminate Hcall].
  exists obj. split; [reflexivity|].
  apply (rebuild_from_attributes _ _ _ Hcall).
Defined.

(** *** What counts as a sequence of functions *)

(** X8: only a [list] is taken as a sequence of functions.  In a call
    that reaches the check of the functions, a [function] value that is
    neither a list nor callable (a tuple of functions, a number, [None])
    is wrapped into a one-element list and rejected as [function[0]]. *)
Theorem non_list_function_rejected kw f :
  dict_wf kw → keyset kw ∈ variants →
  has_type kw "input_points" LabelTensor →
  has_type kw "location" Location →
  dict_get kw "function" = Some f →
  isinstance f list_ = false → callable f = false →
  call [] kw = Raise (TypeError (msg_function 0)).
Proof.
  intros Hwf Hks Hip Hloc Hf Hl Hc.
  rewrite call_run by (by apply variants_no_self). simpl.
  pose proof (keyset_function_no_output _ _ Hwf Hks Hf) as Hnop.
  apply rejected_keyset in Hks; [|done]. rewrite Hks.
  apply has_type_del in Hip, Hloc; [|done..]. rewrite Hip, Hloc. simpl.
  assert (_dictvalue_isinstance (dict_del kw "data_weight") "output_points"
            LabelTensor = true) as ->.
  { apply has_type_del; [done|]. intros v Hv. congruence. }
  simpl. rewrite function_items_normalize, dict_get_del_ne, Hf by done.
  rewrite (isinstance_list_false _ Hl). simpl. by rewrite Hc.
Qed.

Lemma non_list_function_rejected_witness :
  call [] [("location", Sample.L); ("function", VTuple [Sample.f1; Sample.f2])]
  = Raise (TypeError (msg_function 0)).
Proof.
  apply (non_list_function_rejected
           [("location", Sample.L); ("function", VTuple [Sample.f1; Sample.f2])]
           (VTuple [Sample.f1; Sample.f2])).
  - by_computation.
  - by_computation.
  - intros v [=].
  - intros v [= <-]. reflexivity.
  - reflexivity.
  - reflexivity.
  - reflexivity.
Defined.
